(** * The site configuration module and the content front-matter

    The repository holds one ES module, [src/helpers/config.js], made of two
    object literals and two export statements, and markdown posts that open
    with a YAML front-matter block.  The module is embedded as the syntax
    tree of its source text together with an evaluator for the fragment of
    JavaScript it is written in (string literals, identifiers, object
    literals, [const], [export const], [export default]); the front-matter is
    embedded as the lines of the header and read by a line-based reader for
    the YAML block mappings such headers use.  The post itself builds a notes
    reducer with its action creators, store and view bindings; these are
    embedded over a heap of arrays, the state being a reference into it. *)

From Stdlib Require Import String Ascii ZArith.
From stdpp Require Import base option list strings gmap.
From stdpp Require Import sorting list_numbers pretty.

Open Scope string_scope.

(** ** Values, objects and the heap *)

Module JS.

(** A heap location: the index of an object in the heap. *)
Abbreviation loc := nat.

(** The values the fragment computes with.  [VNumber] stands for the
    integer-valued numbers; the module under study never builds one. *)
Inductive value :=
| VUndefined
| VString (s : string)
| VNumber (n : Z)
| VObject (l : loc).

(** The [typeof] operator on these values. *)
Definition typeof (v : value) : string :=
  match v with
  | VUndefined => "undefined"
  | VString _ => "string"
  | VNumber _ => "number"
  | VObject _ => "object"
  end.

(** An object is the list of its own data properties in insertion order. *)
Abbreviation object := (list (string * value)).
Abbreviation heap := (list (list (string * value))).

(** The own property [k] of [o], if there is one. *)
Fixpoint own_prop (k : string) (o : object) : option value :=
  match o with
  | [] => None
  | (k', v) :: o' => if String.eqb k k' then Some v else own_prop k o'
  end.

(** [o.k] or [o[k]]: reading an absent property gives [undefined]. *)
Definition get_prop (k : string) (o : object) : value :=
  default VUndefined (own_prop k o).

(** Defining the data property [k]: an existing key keeps its place and takes
    the new value, a new key goes to the end. *)
Fixpoint set_prop (k : string) (v : value) (o : object) : object :=
  match o with
  | [] => [(k, v)]
  | (k', v') :: o' =>
      if String.eqb k k' then (k', v) :: o' else (k', v') :: set_prop k v o'
  end.

(** [Object.keys(o)] *)
Definition keys (o : object) : list string := o.*1.

(** ** Syntax of the fragment *)

#[local] Unset Elimination Schemes.
Inductive expr :=
| EString (s : string)
| ENumber (n : Z)
| EIdent (x : string)
| EObject (props : list (string * expr)).
#[local] Set Elimination Schemes.

Inductive stmt :=
| SConst (x : string) (e : expr)          (* const x = e;        *)
| SExportConst (x : string) (e : expr)    (* export const x = e; *)
| SExportDefault (e : expr)               (* export default e;   *)
| SAssign (x k : string) (e : expr).      (* x.k = e;            *)

(** ** Evaluation *)

Abbreviation env := (gmap string value).

(** The properties of an object literal, evaluated from left to right by
    [ev] and defined on the object under construction. *)
Definition eval_props (ev : expr -> heap -> option (value * heap))
  : list (string * expr) -> object -> heap -> option (object * heap) :=
  fix go ps o h :=
    match ps with
    | [] => Some (o, h)
    | (k, e) :: ps' =>
        match ev e h with
        | Some (v, h1) => go ps' (set_prop k v o) h1
        | None => None
        end
    end.

(** Expressions are evaluated against the lexical environment and the heap;
    an unbound identifier is a ReferenceError ([None]).  An object literal
    evaluates its properties and then allocates the new object at the end
    of the heap. *)
Fixpoint eval_expr (ρ : env) (e : expr) (h : heap) : option (value * heap) :=
  match e with
  | EString s => Some (VString s, h)
  | ENumber n => Some (VNumber n, h)
  | EIdent x => match ρ !! x with Some v => Some (v, h) | None => None end
  | EObject props =>
      match eval_props (eval_expr ρ) props [] h with
      | Some (o, h') => Some (VObject (List.length h'), (h' ++ [o])%list)
      | None => None
      end
  end.

(** The state of a module body under evaluation: its bindings, what it has
    exported so far, and the heap. *)
Record mstate := MState {
  ms_env : gmap string value;
  ms_exports : list (string * value);
  ms_heap : list (list (string * value))
}.

(** Declaring [x]: a second declaration of the same name is an error. *)
Definition declare (x : string) (v : value) (ρ : env) : option env :=
  match ρ !! x with
  | Some _ => None
  | None => Some (<[x := v]> ρ)
  end.

Definition exec_stmt (s : stmt) (m : mstate) : option mstate :=
  match s with
  | SConst x e =>
      match eval_expr (ms_env m) e (ms_heap m) with
      | Some (v, h) =>
          match declare x v (ms_env m) with
          | Some ρ => Some (MState ρ (ms_exports m) h)
          | None => None
          end
      | None => None
      end
  | SExportConst x e =>
      match eval_expr (ms_env m) e (ms_heap m) with
      | Some (v, h) =>
          match declare x v (ms_env m) with
          | Some ρ => Some (MState ρ (set_prop x v (ms_exports m)) h)
          | None => None
          end
      | None => None
      end
  | SExportDefault e =>
      match eval_expr (ms_env m) e (ms_heap m) with
      | Some (v, h) =>
          Some (MState (ms_env m) (set_prop "default" v (ms_exports m)) h)
      | None => None
      end
  | SAssign x k e =>
      match ms_env m !! x with
      | Some (VObject l) =>
          match eval_expr (ms_env m) e (ms_heap m) with
          | Some (v, h) =>
              match h !! l with
              | Some o => Some (MState (ms_env m) (ms_exports m)
                                       (<[l := set_prop k v o]> h))
              | None => None
              end
          | None => None
          end
      | _ => None
      end
  end.

Fixpoint exec_body (body : list stmt) (m : mstate) : option mstate :=
  match body with
  | [] => Some m
  | s :: body' =>
      match exec_stmt s m with
      | Some m' => exec_body body' m'
      | None => None
      end
  end.

(** ** Processes and the module registry

    A process holds the heap and the registry of the modules it has loaded.
    Importing a module that is in the registry returns the recorded exports;
    otherwise the body runs once in a fresh scope and its exports are
    recorded. *)
Record process := Process {
  registry : gmap string (list (string * value));
  p_heap : list (list (string * value))
}.

Definition import_module (specifier : string) (body : list stmt) (p : process)
  : option (list (string * value) * process) :=
  match registry p !! specifier with
  | Some ns => Some (ns, p)
  | None =>
      match exec_body body (MState ∅ [] (p_heap p)) with
      | Some m =>
          Some (ms_exports m,
                Process (<[specifier := ms_exports m]> (registry p)) (ms_heap m))
      | None => None
      end
  end.

(** Following a reference into the heap. *)
Definition deref (h : heap) (v : value) : option object :=
  match v with
  | VObject l => h !! l
  | _ => None
  end.

(** The statements that write to an object that already exists. *)
Definition is_mutation (s : stmt) : bool :=
  match s with
  | SAssign _ _ _ => true
  | _ => false
  end.

(** The names a module body exports, in the order it exports them. *)
Fixpoint export_names (body : list stmt) : list string :=
  match body with
  | [] => []
  | SExportConst x _ :: body' => x :: export_names body'
  | SExportDefault _ :: body' => "default" :: export_names body'
  | _ :: body' => export_names body'
  end.

(** The property names of the object literal that [x] is declared with, as
    the source writes them. *)
Fixpoint literal_keys (x : string) (body : list stmt) : option (list string) :=
  match body with
  | [] => None
  | SConst y (EObject props) :: body'
  | SExportConst y (EObject props) :: body' =>
      if String.eqb x y then Some props.*1 else literal_keys x body'
  | _ :: body' => literal_keys x body'
  end.

End JS.

Import JS.

(** ** src/helpers/config.js *)

Definition config_js : list stmt :=
  [ SConst "config" (EObject
      [ ("siteTitle", EString "Aman Mittal");
        ("siteUrl", EString "https://amanhimself.dev");
        ("description", EString "Software engineer and technical content writer.");
        ("username", EString "Alec Campbell");
        ("shortname", EString "@fu4303");
        ("newsletter", EString "https://amanhimself.substack.com/");
        ("github", EString "https://github.com/fu4303");
        ("twitter", EString "https://twitter.com/fu4303");
        ("medium", EString "https://medium.com/@amanhimself");
        ("devto", EString "https://dev.to/fu4303");
        ("hashnode", EString "https://hashnode.com/@fu4303");
        ("instagram", EString "https://www.instagram.com/amanhimselfcodes/");
        ("hundredDaysOfCodeBot", EString "https://twitter.com/_100Daysofcode");
        ("mailAddress", EString "mailto:amanmittal.work@gmail.com");
        ("kofi", EString "https://ko-fi.com/amanhimself");
        ("twitterBotRepo", EString "https://github.com/freeCodeCamp/100DaysOfCode-twitter-bot");
        ("goodreads", EString "https://www.goodreads.com/author/show/17657541.Aman_Mittal");
        ("subscribersCount", EString "1200+") ]);
    SExportConst "SavedTweets" (EObject
      [ ("twoMillionViews",
         EString "https://twitter.com/amanhimself/status/1285554115464982528");
        ("topContributorFreeCodeCamp2018",
         EString "https://www.freecodecamp.org/news/announcing-our-freecodecamp-2018-top-contributor-award-winners-861da08a77e1/") ]);
    SExportDefault (EIdent "config") ].

Definition config_specifier : string := "src/helpers/config.js".

(** [import config, { SavedTweets } from 'src/helpers/config.js'] *)
Definition import_config (p : process)
  : option (list (string * value) * process) :=
  import_module config_specifier config_js p.

(** The import number [n] (counting from 0) of a run of imports in one
    process. *)
Fixpoint nth_import (n : nat) (p : process)
  : option (list (string * value) * process) :=
  match n with
  | O => import_config p
  | S n' =>
      match import_config p with
      | Some (_, p') => nth_import n' p'
      | None => None
      end
  end.

(** A process that has loaded nothing yet. *)
Definition fresh : process := Process ∅ [].

(** What an importer gets under the export name [name] in a fresh process:
    the object the export refers to. *)
Definition exported (name : string) : object :=
  match import_config fresh with
  | Some (ns, p) => default [] (deref (p_heap p) (get_prop name ns))
  | None => []
  end.

Definition config : object := exported "default".
Definition SavedTweets : object := exported "SavedTweets".

(** [config.k] as a string; the empty string stands in for a value that is
    not a string. *)
Definition field (k : string) : string :=
  match get_prop k config with
  | VString s => s
  | _ => ""
  end.

(** [s.startsWith(p)] *)
Definition startsWith (s p : string) : bool := String.prefix p s.

(** [s.includes(t)]: [t] occurs in [s]. *)
Fixpoint includes (s t : string) : bool :=
  String.prefix t s ||
  match s with
  | EmptyString => false
  | String _ s' => includes s' t
  end.


(** ** Strings: splitting and character classes *)

Module Str.

(** [s] without the prefix [p], when [s] starts with [p]. *)
Fixpoint strip_prefix (p s : string) : option string :=
  match p, s with
  | EmptyString, _ => Some s
  | String a p', String b s' =>
      if Ascii.eqb a b then strip_prefix p' s' else None
  | String _ _, EmptyString => None
  end.

(** [s] cut at the first character satisfying [f]: what comes before it, and
    that character with what follows it. *)
Fixpoint break (f : ascii -> bool) (s : string) : string * string :=
  match s with
  | EmptyString => (EmptyString, EmptyString)
  | String c s' =>
      if f c then (EmptyString, s)
      else let '(a, b) := break f s' in (String c a, b)
  end.

Fixpoint forallb (f : ascii -> bool) (s : string) : bool :=
  match s with
  | EmptyString => true
  | String c s' => f c && forallb f s'
  end.

(** [c] is one of the characters of [s]. *)
Fixpoint mem (c : ascii) (s : string) : bool :=
  match s with
  | EmptyString => false
  | String c' s' => Ascii.eqb c c' || mem c s'
  end.

Definition between (lo hi : nat) (c : ascii) : bool :=
  (lo <=? nat_of_ascii c)%nat && (nat_of_ascii c <=? hi)%nat.

Definition is_digit : ascii -> bool := between 48 57.
Definition is_alpha (c : ascii) : bool := between 65 90 c || between 97 122 c.
Definition is_hexdig (c : ascii) : bool :=
  is_digit c || between 65 70 c || between 97 102 c.

End Str.

(** ** URI syntax (RFC 3986)

    The recogniser follows the grammar
    [URI = scheme ":" hier-part [ "?" query ] [ "#" fragment ]] with
    [hier-part = "//" authority path-abempty], the form a URL with a host
    takes.  Hosts are registered names; IP literals in brackets are not
    accepted. *)

Module Url.

Import Str.

Definition is_unreserved (c : ascii) : bool :=
  is_alpha c || is_digit c || mem c "-._~".

Definition is_sub_delim (c : ascii) : bool := mem c "!$&'()*+,;=".

(** Every character of [s] is allowed by [f] or opens a percent-encoded
    octet, ["%" HEXDIG HEXDIG]. *)
Fixpoint chars (f : ascii -> bool) (s : string) : bool :=
  match s with
  | EmptyString => true
  | String c s' =>
      if Ascii.eqb c "%" then
        match s' with
        | String a (String b s'') => is_hexdig a && is_hexdig b && chars f s''
        | _ => false
        end
      else f c && chars f s'
  end.

(** [scheme = ALPHA *( ALPHA / DIGIT / "+" / "-" / "." )] *)
Definition is_scheme (s : string) : bool :=
  match s with
  | EmptyString => false
  | String c s' =>
      is_alpha c && Str.forallb (fun c => is_alpha c || is_digit c || mem c "+-.") s'
  end.

(** [pchar = unreserved / pct-encoded / sub-delims / ":" / "@"] *)
Definition is_pchar (c : ascii) : bool :=
  is_unreserved c || is_sub_delim c || mem c ":@".

Definition is_path (s : string) : bool :=
  chars (fun c => is_pchar c || mem c "/") s.

(** [query] and [fragment]: [*( pchar / "/" / "?" )] *)
Definition is_query (s : string) : bool :=
  chars (fun c => is_pchar c || mem c "/?") s.

(** [authority = [ userinfo "@" ] host [ ":" port ]] with a non-empty
    registered name as host. *)
Definition is_authority (s : string) : bool :=
  let '(a, b) := break (fun c => mem c "@") s in
  let hostport :=
    match b with
    | String _ b' => if chars (fun c => is_unreserved c || is_sub_delim c || mem c ":") a
                     then Some b' else None
    | EmptyString => Some a
    end in
  match hostport with
  | None => false
  | Some hp =>
      let '(host, port) := break (fun c => mem c ":") hp in
      negb (String.eqb host "")
      && chars (fun c => is_unreserved c || is_sub_delim c) host
      && match port with
         | String _ digits => Str.forallb is_digit digits
         | EmptyString => true
         end
  end.

(** The scheme of [s]: what precedes its first colon. *)
Definition scheme_of (s : string) : option string :=
  let '(sch, rest) := break (fun c => mem c ":") s in
  match rest with
  | String _ _ => if is_scheme sch then Some sch else None
  | EmptyString => None
  end.

(** [s] is a URI with an authority. *)
Definition is_url (s : string) : bool :=
  let '(sch, rest) := break (fun c => mem c ":") s in
  match rest with
  | String _ after_colon =>
      is_scheme sch &&
      let '(before_fragment, fragment) := break (fun c => mem c "#") after_colon in
      let '(hier, query) := break (fun c => mem c "?") before_fragment in
      match strip_prefix "//" hier with
      | Some h =>
          let '(authority, path) := break (fun c => mem c "/") h in
          is_authority authority && is_path path
      | None => false
      end
      && match query with String _ q => is_query q | EmptyString => true end
      && match fragment with String _ f => is_query f | EmptyString => true end
  | EmptyString => false
  end.

End Url.

(** ** Reading a string as a number

    [Number(s)] and unary [+s] apply StringToNumber, which gives NaN unless
    the whole of [s], white space at both ends apart, matches the
    StringNumericLiteral grammar. *)

Module Num.

Import Str.

Definition is_white (c : ascii) : bool :=
  between 9 13 c || Ascii.eqb c " ".

Fixpoint drop_white (s : string) : string :=
  match s with
  | EmptyString => EmptyString
  | String c s' => if is_white c then drop_white s' else s
  end.

(** [s] without the white space at its end. *)
Fixpoint drop_white_end (s : string) : string :=
  match s with
  | EmptyString => EmptyString
  | String c s' =>
      match drop_white_end s' with
      | EmptyString => if is_white c then EmptyString else String c EmptyString
      | t => String c t
      end
  end.

Definition trim (s : string) : string := drop_white_end (drop_white s).

(** One or more characters, all in the class [f]. *)
Definition some_of (f : ascii -> bool) (s : string) : bool :=
  negb (String.eqb s "") && Str.forallb f s.

(** [ExponentPart_opt] up to the end of the string. *)
Definition is_exponent_opt (s : string) : bool :=
  match s with
  | EmptyString => true
  | String c s' =>
      mem c "eE" &&
      match s' with
      | String d s'' => if mem d "+-" then some_of is_digit s'' else some_of is_digit s'
      | EmptyString => false
      end
  end.

(** [StrUnsignedDecimalLiteral] *)
Definition is_unsigned_decimal (s : string) : bool :=
  String.eqb s "Infinity" ||
  let '(int_part, rest) := break (fun c => negb (is_digit c)) s in
  match rest with
  | String c rest' =>
      if Ascii.eqb c "." then
        let '(frac_part, rest'') := break (fun c => negb (is_digit c)) rest' in
        negb (String.eqb int_part "" && String.eqb frac_part "")
        && is_exponent_opt rest''
      else negb (String.eqb int_part "") && is_exponent_opt rest
  | EmptyString => negb (String.eqb int_part "")
  end.

(** [NonDecimalIntegerLiteral]: binary, octal and hexadecimal. *)
Definition is_non_decimal (s : string) : bool :=
  match s with
  | String z (String r s') =>
      Ascii.eqb z "0" &&
      (mem r "bB" && some_of (between 48 49) s'
       || mem r "oO" && some_of (between 48 55) s'
       || mem r "xX" && some_of is_hexdig s')
  | _ => false
  end.

(** [StrNumericLiteral], with the sign [StrDecimalLiteral] allows. *)
Definition is_numeric_literal (s : string) : bool :=
  is_non_decimal s ||
  match s with
  | String c s' => if mem c "+-" then is_unsigned_decimal s' else is_unsigned_decimal s
  | EmptyString => false
  end.

(** [Number(s)] is a number, not NaN.  The empty string, and one of white
    space only, converts to 0. *)
Definition parses_as_number (s : string) : bool :=
  let t := trim s in
  String.eqb t "" || is_numeric_literal t.

End Num.

(** ** Front-matter

    A post opens with a line [---], a YAML block mapping, and a closing
    [---].  The reader covers what such headers are written in: one
    [key: scalar] per line, and [key:] followed by a block sequence of
    [  - scalar] lines. *)

Module FrontMatter.

Import Str.

(** A scalar remembers whether it was written in quotes: a quoted scalar is
    a string whatever it looks like. *)
Record scalar := Scalar { quoted : bool; text : string }.

Inductive node :=
| NNull
| NScalar (s : scalar)
| NSeq (items : list scalar).

(** How a scalar resolves. *)
Inductive kind := KNull | KBool | KInt | KFloat | KDate | KStr.

Definition is_null_text (s : string) : bool :=
  existsb (String.eqb s) [""; "~"; "null"; "Null"; "NULL"].

Definition is_bool_text (s : string) : bool :=
  existsb (String.eqb s) ["true"; "True"; "TRUE"; "false"; "False"; "FALSE"].

Definition unsigned (s : string) : string :=
  match s with
  | String c s' => if mem c "+-" then s' else s
  | EmptyString => s
  end.

Definition is_int_text (s : string) : bool :=
  let d := unsigned s in negb (String.eqb d "") && Str.forallb is_digit d.

Definition is_float_text (s : string) : bool :=
  let '(a, b) := break (fun c => mem c ".") (unsigned s) in
  match b with
  | String _ f =>
      negb (String.eqb a "" && String.eqb f "")
      && Str.forallb is_digit a && Str.forallb is_digit f
  | EmptyString => false
  end.

(** [YYYY-MM-DD] *)
Definition is_date_text (s : string) : bool :=
  (String.length s =? 10)%nat
  && Str.forallb is_digit (substring 0 4 s)
  && String.eqb (substring 4 1 s) "-"
  && Str.forallb is_digit (substring 5 2 s)
  && String.eqb (substring 7 1 s) "-"
  && Str.forallb is_digit (substring 8 2 s).

Definition kind_of (s : scalar) : kind :=
  if quoted s then KStr
  else if is_null_text (text s) then KNull
  else if is_bool_text (text s) then KBool
  else if is_int_text (text s) then KInt
  else if is_float_text (text s) then KFloat
  else if is_date_text (text s) then KDate
  else KStr.

(** [s] without its last character, when that character is [c]. *)
Fixpoint strip_last (c : ascii) (s : string) : option string :=
  match s with
  | EmptyString => None
  | String a EmptyString => if Ascii.eqb a c then Some EmptyString else None
  | String a s' => option_map (String a) (strip_last c s')
  end.

(** A scalar as written: in single quotes, or plain. *)
Definition read_scalar (s : string) : scalar :=
  match s with
  | String q s' =>
      if Ascii.eqb q "'" then
        match strip_last "'" s' with
        | Some t => Scalar true t
        | None => Scalar false s
        end
      else Scalar false s
  | EmptyString => Scalar false s
  end.

(** Adding an item to the sequence under the last key read. *)
Fixpoint add_item (x : scalar) (es : list (string * node))
  : option (list (string * node)) :=
  match es with
  | [] => None
  | [(k, NNull)] => Some [(k, NSeq [x])]
  | [(k, NSeq xs)] => Some [(k, NSeq (xs ++ [x])%list)]
  | [(k, NScalar _)] => None
  | e :: es' => option_map (cons e) (add_item x es')
  end.

(** One line of the header. *)
Definition read_line (es : list (string * node)) (l : string)
  : option (list (string * node)) :=
  match strip_prefix "  - " l with
  | Some item => add_item (read_scalar item) es
  | None =>
      let '(k, rest) := break (fun c => mem c ":") l in
      match rest with
      | String _ EmptyString => Some (es ++ [(k, NNull)])%list
      | String _ (String sp v) =>
          if Ascii.eqb sp " "
          then Some (es ++ [(k, NScalar (read_scalar v))])%list
          else None
      | EmptyString => None
      end
  end.

Fixpoint read_lines (es : list (string * node)) (ls : list string)
  : option (list (string * node)) :=
  match ls with
  | [] => Some es
  | l :: ls' =>
      match read_line es l with
      | Some es' => read_lines es' ls'
      | None => None
      end
  end.

(** The lines up to the closing [---]. *)
Fixpoint until_fence (ls : list string) : option (list string) :=
  match ls with
  | [] => None
  | l :: ls' =>
      if String.eqb l "---" then Some []
      else option_map (cons l) (until_fence ls')
  end.

(** The front-matter of a document given as its lines. *)
Definition front_matter (doc : list string) : option (list (string * node)) :=
  match doc with
  | l :: ls =>
      if String.eqb l "---" then
        match until_fence ls with
        | Some header => read_lines [] header
        | None => None
        end
      else None
  | [] => None
  end.

Fixpoint lookup (k : string) (fm : list (string * node)) : option node :=
  match fm with
  | [] => None
  | (k', n) :: fm' => if String.eqb k k' then Some n else lookup k fm'
  end.

(** The node under [k] is a scalar that resolves to a string. *)
Definition is_string_at (k : string) (fm : list (string * node)) : bool :=
  match lookup k fm with
  | Some (NScalar s) => match kind_of s with KStr => true | _ => false end
  | _ => false
  end.

Definition is_date_at (k : string) (fm : list (string * node)) : bool :=
  match lookup k fm with
  | Some (NScalar s) => match kind_of s with KDate => true | _ => false end
  | _ => false
  end.

(** The node under [k] is a sequence whose items all resolve to strings. *)
Definition is_string_list_at (k : string) (fm : list (string * node)) : bool :=
  match lookup k fm with
  | Some (NSeq xs) =>
      List.forallb (fun x => match kind_of x with KStr => true | _ => false end) xs
  | _ => false
  end.

Definition has_key (k : string) (fm : list (string * node)) : bool :=
  match lookup k fm with Some _ => true | None => false end.

Definition required_keys : list string :=
  ["title"; "date"; "slug"; "thumbnail"; "template"; "tags"].

(** The slug a document declares. *)
Definition slug_of (doc : list string) : option string :=
  match front_matter doc with
  | Some fm =>
      match lookup "slug" fm with
      | Some (NScalar s) => Some (text s)
      | _ => None
      end
  | None => None
  end.

End FrontMatter.

(** ** content/posts/redux-with-react-native-hooks.md

    The head of the document, line by line; the body of the post follows the
    blank line. *)
Definition redux_with_react_native_hooks_md : list string :=
  [ "---";
    "title: 'Using Redux with React Hooks in a React Native app'";
    "date: 2020-01-27";
    "slug: 'blog/redux-with-react-native-hooks'";
    "thumbnail: '../thumbnails/expo.png'";
    "template: post";
    "tags:";
    "  - expo";
    "  - redux";
    "  - react-native";
    "---";
    "" ].

(** The content documents. *)
Definition content_documents : list (list string) :=
  [ redux_with_react_native_hooks_md ].


(** The keys the configuration is documented to have. *)
Definition documented_keys : list string :=
  [ "siteTitle"; "siteUrl"; "description"; "username"; "shortname"; "github";
    "twitter"; "medium"; "devto"; "hashnode"; "instagram"; "goodreads";
    "mailAddress"; "newsletter"; "kofi"; "twitterBotRepo";
    "hundredDaysOfCodeBot"; "subscribersCount" ].

(** The fields that hold a link to a web page. *)
Definition link_fields : list string :=
  [ "siteUrl"; "newsletter"; "github"; "twitter"; "medium"; "devto";
    "hashnode"; "instagram"; "hundredDaysOfCodeBot"; "kofi"; "twitterBotRepo";
    "goodreads" ].

(** [config.k] has a URI scheme, and it is not [https]. *)
Definition other_scheme (k : string) : bool :=
  match Url.scheme_of (field k) with
  | Some sch => negb (String.eqb sch "https")
  | None => false
  end.

(** The entry of SavedTweets points to a tweet. *)
Definition is_tweet (kv : string * value) : bool :=
  match kv.2 with
  | VString s => startsWith s "https://twitter.com/"
  | _ => false
  end.

(** The value is a string that is a URL. *)
Definition is_url_value (v : value) : bool :=
  match v with
  | VString s => Url.is_url s
  | _ => false
  end.

(** ** The notes reducer of the post

    The post builds [src/redux/notesApp.js]: two action types, two action
    creators over a counter, and a reducer, which [store.js] hands to
    [createStore] and [ViewNotes.js] drives through [dispatch].  Arrays live
    in a heap and the state is a reference to one of them, since the reducer
    hands its state to [remove], which changes the array it is given. *)

Module NotesApp.

(** [export const ADD_NOTE = 'ADD_NOTE'] and
    [export const DELETE_NOTE = 'DELETE_NOTE'] *)
Definition ADD_NOTE : string := "ADD_NOTE".
Definition DELETE_NOTE : string := "DELETE_NOTE".

(** [noteID++] on the values the counter takes, the integers from 0 to 2^53:
    below 2^53 the sum is exact; 2^53 + 1 is not a double and rounds back to
    2^53. *)
Definition increment (n : Z) : Z :=
  if (n <? 2 ^ 53)%Z then (n + 1)%Z else n.

Section Definitions.

Context {Note : Type}.

(** An action.  A property the object does not have reads as [undefined],
    here [None]. *)
Record action := Action {
  a_type : string;
  a_id : option Z;
  a_note : option Note;
  a_payload : option Z
}.

(** An element of the state: [{ id, note }]. *)
Record item := Item {
  n_id : option Z;
  n_note : option Note
}.

(** [addnote(note)] with the counter [noteID] it reads and increments: the
    action, and the counter after the call. *)
Definition addnote (note : Note) (noteID : Z) : action * Z :=
  (Action ADD_NOTE (Some noteID) (Some note) None, increment noteID).

(** [deletenote(id)] *)
Definition deletenote (id : option Z) : action :=
  Action DELETE_NOTE None None id.

(** [remove(array, predicate)] of lodash: takes out of [array], in place, the
    elements [predicate] holds for, and returns them in a new array. *)
Definition remove (h : list (list item)) (array : nat)
    (predicate : item -> Prop) `{!forall x, Decision (predicate x)}
  : option (nat * list (list item)) :=
  match h !! array with
  | Some elements =>
      let h1 := <[array := filter (fun x => ~ predicate x) elements]> h in
      Some (List.length h1, (h1 ++ [filter predicate elements])%list)
  | None => None
  end.

(** [const initialState = []]: the first array of the module. *)
Definition initialState : nat := 0%nat.

(** [notesReducer(state = initialState, action)].  [None] as state is
    [undefined]; the result is the reference returned and the heap after the
    call.  [obj.id != action.payload] compares two values that are numbers
    or [undefined]. *)
Definition notesReducer (h : list (list item)) (state : option nat)
    (a : action) : option (nat * list (list item)) :=
  let state := default initialState state in
  if decide (a_type a = ADD_NOTE) then
    match h !! state with
    | Some elements =>
        Some (List.length h,
              (h ++ [(elements ++ [Item (a_id a) (a_note a)])%list])%list)
    | None => None
    end
  else if decide (a_type a = DELETE_NOTE) then
    remove h state (fun obj => n_id obj <> a_payload a)
  else Some (state, h).

(** The application: the counter of [notesApp.js], the state the store
    holds, and the heap. *)
Record app := App {
  noteID : Z;
  state : nat;
  heap : list (list item)
}.

(** The action [createStore] sends first; its type is no type of the
    application. *)
Definition INIT : action := Action "@@redux/INIT" None None None.

(** [createStore(notesReducer)] after the module has been evaluated: the
    state is what the reducer makes of [undefined]. *)
Definition createStore : option app :=
  match notesReducer [[]] None INIT with
  | Some (st, h) => Some (App 0 st h)
  | None => None
  end.

(** [store.dispatch(action)]: the state becomes what the reducer returns. *)
Definition dispatch (a : action) (s : app) : option app :=
  match notesReducer (heap s) (Some (state s)) a with
  | Some (st, h) => Some (App (noteID s) st h)
  | None => None
  end.

(** [const notes = useSelector(state => state)] *)
Definition notes (s : app) : list item :=
  default [] (heap s !! state s).

(** [const addNote = note => dispatch(addnote(note))] *)
Definition addNote (note : Note) (s : app) : option app :=
  let '(a, c) := addnote note (noteID s) in
  dispatch a (App c (state s) (heap s)).

(** [const deleteNote = id => dispatch(deletenote(id))] *)
Definition deleteNote (id : option Z) (s : app) : option app :=
  dispatch (deletenote id) s.

(** [keyExtractor={item => item.id.toString()}]: the id in decimal; there is
    no key ([None], a TypeError) for an item whose id is [undefined]. *)
Definition keyExtractor (x : item) : option string :=
  match n_id x with
  | Some i => Some (pretty i)
  | None => None
  end.

(** What the user does: saves a note, or presses one. *)
Inductive event :=
| Add (note : Note)
| Delete (id : option Z).

Definition handle (e : event) (s : app) : option app :=
  match e with
  | Add note => addNote note s
  | Delete id => deleteNote id s
  end.

Fixpoint run (evs : list event) (s : app) : option app :=
  match evs with
  | [] => Some s
  | e :: evs' =>
      match handle e s with
      | Some s' => run evs' s'
      | None => None
      end
  end.

(** [addnote] called on each note of a list in turn: the actions, and the
    counter after the calls. *)
Fixpoint addnotes (ns : list Note) (noteID : Z) : list action * Z :=
  match ns with
  | [] => ([], noteID)
  | n :: ns' =>
      let '(a, c) := addnote n noteID in
      let '(acts, c') := addnotes ns' c in
      (a :: acts, c')
  end.

(** The ids of the notes are numbers below [c], in increasing order. *)
Definition id_lt (x y : item) : Prop :=
  match n_id x, n_id y with
  | Some i, Some j => (i < j)%Z
  | _, _ => False
  end.

Definition ids_below (c : Z) (l : list item) : Prop :=
  Forall (fun x => exists i, n_id x = Some i /\ (0 <= i < c)%Z) l.

(** The states the application keeps to: the counter is in range, the state
    is an array of the heap whose ids are increasing numbers below the
    counter, and the initial array is empty. *)
Record consistent (s : app) : Prop := {
  counter_range : (0 <= noteID s <= 2 ^ 53)%Z;
  state_valid : is_Some (heap s !! state s);
  ids_fresh : ids_below (noteID s) (notes s);
  ids_increasing : StronglySorted id_lt (notes s);
  initial_empty : heap s !! initialState = Some []
}.

End Definitions.

Arguments action : clear implicits.
Arguments item : clear implicits.
Arguments app : clear implicits.
Arguments event : clear implicits.

(** The application after the notes "milk" and "eggs" have been saved. *)
Definition milk : item string := Item (Some 0%Z) (Some "milk").
Definition eggs : item string := Item (Some 1%Z) (Some "eggs").
Definition two_notes : app string :=
  App 2 2 [ []; [milk]; [milk; eggs] ].

End NotesApp.

(** * Properties *)

(** ** The evaluator *)

Lemma expr_ind (P : expr -> Prop) :
  (forall s, P (EString s)) ->
  (forall n, P (ENumber n)) ->
  (forall x, P (EIdent x)) ->
  (forall props, Forall (fun kv => P kv.2) props -> P (EObject props)) ->
  forall e, P e.
Proof.
  intros Hs Hn Hx Ho. fix IH 1. intros [s|n|x|props].
  - apply Hs.
  - apply Hn.
  - apply Hx.
  - apply Ho. induction props as [|[k e] props IHp]; constructor.
    + apply IH.
    + apply IHp.
Qed.

(** Evaluating the properties of a literal only adds objects to the heap,
    when evaluating each property does. *)
Lemma eval_props_extends ev ps :
  Forall (fun kv => forall h v h', ev kv.2 h = Some (v, h') ->
                    exists new, h' = (h ++ new)%list) ps ->
  forall o h o' h', eval_props ev ps o h = Some (o', h') ->
  exists new, h' = (h ++ new)%list.
Proof.
  induction 1 as [|[k e] ps He _ IH]; intros o h o' h' Hev; simpl in Hev.
  - exists []. rewrite app_nil_r. congruence.
  - destruct (ev e h) as [[v h1]|] eqn:E; [|discriminate].
    destruct (He _ _ _ E) as [n1 ->].
    destruct (IH _ _ _ _ Hev) as [n2 ->].
    exists (n1 ++ n2)%list. by rewrite app_assoc.
Qed.

(** An expression leaves every object of the heap as it is: the heap after
    it is the heap before it followed by the objects it has allocated. *)
Lemma eval_expr_extends ρ e :
  forall h v h', eval_expr ρ e h = Some (v, h') ->
  exists new, h' = (h ++ new)%list.
Proof.
  induction e as [s|n|x|props IH] using expr_ind; intros h v h' Hev;
    simpl in Hev.
  - exists []. rewrite app_nil_r. congruence.
  - exists []. rewrite app_nil_r. congruence.
  - destruct (ρ !! x); [|discriminate].
    exists []. rewrite app_nil_r. congruence.
  - destruct (eval_props (eval_expr ρ) props [] h) as [[o h1]|] eqn:E;
      [|discriminate].
    destruct (eval_props_extends _ _ IH _ _ _ _ E) as [n1 ->].
    exists (n1 ++ [o])%list. rewrite app_assoc. congruence.
Qed.

(** A statement other than an assignment to a property leaves every object
    of the heap as it is. *)
Lemma exec_stmt_extends s m m' :
  is_mutation s = false ->
  exec_stmt s m = Some m' ->
  exists new, ms_heap m' = (ms_heap m ++ new)%list.
Proof.
  intros Hs Hex. destruct s as [x e|x e|e|x k e]; simpl in *;
    try discriminate;
    destruct (eval_expr (ms_env m) e (ms_heap m)) as [[v h]|] eqn:E;
    try discriminate;
    destruct (eval_expr_extends _ _ _ _ _ E) as [new ->]; exists new.
  - destruct (declare x v (ms_env m)); [|discriminate]. by inversion Hex.
  - destruct (declare x v (ms_env m)); [|discriminate]. by inversion Hex.
  - by inversion Hex.
Qed.

Lemma exec_body_extends body :
  Forall (fun s => is_mutation s = false) body ->
  forall m m', exec_body body m = Some m' ->
  exists new, ms_heap m' = (ms_heap m ++ new)%list.
Proof.
  induction 1 as [|s body Hs _ IH]; intros m m' Hex; simpl in Hex.
  - exists []. rewrite app_nil_r. congruence.
  - destruct (exec_stmt s m) as [m1|] eqn:E; [|discriminate].
    destruct (exec_stmt_extends _ _ _ Hs E) as [n1 H1].
    destruct (IH _ _ Hex) as [n2 H2].
    exists (n1 ++ n2)%list. by rewrite H2, H1, app_assoc.
Qed.

(** ** Loading the module *)

Lemma config_js_no_mutation : Forall (fun s => is_mutation s = false) config_js.
Proof. repeat constructor. Qed.

(** The body runs to its end from any heap, allocates the two objects after
    the objects already there, and exports references to them. *)
Lemma exec_config_js_exports (h : heap) :
  ms_exports <$> exec_body config_js (MState ∅ [] h)
  = Some [ ("SavedTweets", VObject (List.length (h ++ [config])%list));
           ("default", VObject (List.length h)) ].
Proof. vm_compute. reflexivity. Qed.

Lemma exec_config_js_heap (h : heap) :
  ms_heap <$> exec_body config_js (MState ∅ [] h)
  = Some ((h ++ [config]) ++ [SavedTweets])%list.
Proof. vm_compute. reflexivity. Qed.

Lemma exec_config_js_total (h : heap) :
  is_Some (exec_body config_js (MState ∅ [] h)).
Proof.
  pose proof (exec_config_js_heap h) as H.
  destruct (exec_body config_js (MState ∅ [] h)); [eauto | discriminate].
Qed.

Lemma import_config_cached p ns :
  registry p !! config_specifier = Some ns ->
  import_config p = Some (ns, p).
Proof. intros H. unfold import_config, import_module. by rewrite H. Qed.

(** An import succeeds in every process, and the process it leaves answers
    the next import from its registry. *)
Lemma import_config_total p :
  exists ns p1,
    import_config p = Some (ns, p1)
    /\ registry p1 !! config_specifier = Some ns
    /\ exists new, p_heap p1 = (p_heap p ++ new)%list.
Proof.
  unfold import_config, import_module.
  destruct (registry p !! config_specifier) as [ns|] eqn:Hreg.
  - exists ns, p. split; [done|]. split; [done|].
    exists []. by rewrite app_nil_r.
  - destruct (exec_config_js_total (p_heap p)) as [m Hm]. rewrite Hm.
    eexists _, _. split; [done|]. simpl. split.
    + apply lookup_insert_eq.
    + apply (exec_body_extends _ config_js_no_mutation _ _ Hm).
Qed.

Lemma nth_import_cached n p ns :
  registry p !! config_specifier = Some ns ->
  nth_import n p = Some (ns, p).
Proof.
  intros H. induction n as [|n IH]; simpl.
  - by apply import_config_cached.
  - by rewrite (import_config_cached _ _ H).
Qed.

(** Whatever its place in a run of imports, an import gives what the first
    one gave and leaves the process as the first one left it. *)
Lemma nth_import_first n p ns p1 :
  import_config p = Some (ns, p1) ->
  registry p1 !! config_specifier = Some ns ->
  nth_import n p = Some (ns, p1).
Proof.
  intros Himp Hreg. destruct n as [|n]; simpl.
  - done.
  - rewrite Himp. by apply nth_import_cached.
Qed.

(** ** The front-matter of the post *)

(** The header of the post reads as the six fields it is written with:
    [title], [slug], [thumbnail] and [template] are strings, [date] is a
    date, and [tags] is the list of the three tags. *)
Lemma redux_post_front_matter :
  exists fm,
    FrontMatter.front_matter redux_with_react_native_hooks_md = Some fm
    /\ fm.*1 = FrontMatter.required_keys
    /\ Forall (fun k => FrontMatter.is_string_at k fm = true)
              ["title"; "slug"; "thumbnail"; "template"]
    /\ FrontMatter.is_date_at "date" fm = true
    /\ FrontMatter.lookup "tags" fm
       = Some (FrontMatter.NSeq
                 (FrontMatter.Scalar false <$> ["expo"; "redux"; "react-native"])).
Proof.
  eexists. split; [reflexivity|]. split; [reflexivity|].
  split; [repeat constructor|]. split; reflexivity.
Qed.

(** * The documented properties *)

(** C1: loading the configuration gives [config.siteTitle] equal to
    ['Aman Mittal'], [config.github] a string that starts with
    ['https://github.com/'], and [SavedTweets] with exactly the two entries
    [twoMillionViews] and [topContributorFreeCodeCamp2018] and the URLs the
    source gives them. *)
Theorem C1_config_scenario :
  get_prop "siteTitle" config = VString "Aman Mittal"
  /\ (exists s, get_prop "github" config = VString s
                /\ startsWith s "https://github.com/" = true)
  /\ SavedTweets =
       [ ("twoMillionViews",
          VString "https://twitter.com/amanhimself/status/1285554115464982528");
         ("topContributorFreeCodeCamp2018",
          VString "https://www.freecodecamp.org/news/announcing-our-freecodecamp-2018-top-contributor-award-winners-861da08a77e1/") ].
Proof.
  split; [reflexivity|]. split; [|reflexivity].
  eexists. split; reflexivity.
Qed.

(** C2: the configuration has every documented key, and the value under
    each of them is a string that is not empty. *)
Theorem C2_documented_keys_nonempty_strings :
  Forall (fun k => exists s, own_prop k config = Some (VString s)
                             /\ s <> "") documented_keys.
Proof.
  repeat (constructor; [eexists; split; [reflexivity | discriminate]|]).
  constructor.
Qed.

(** C3: the keys of [SavedTweets] are pairwise distinct, in the literal the
    source writes as in the object it evaluates to, and every value is a
    string that is a syntactically valid URL. *)
Theorem C3_saved_tweets_unique_keys_valid_urls :
  (exists ks, literal_keys "SavedTweets" config_js = Some ks /\ NoDup ks)
  /\ NoDup (keys SavedTweets)
  /\ Forall (fun kv => is_url_value kv.2 = true) SavedTweets.
Proof.
  split; [eexists; split; [reflexivity|]|split].
  - apply (bool_decide_unpack _). by vm_compute.
  - apply (bool_decide_unpack _). by vm_compute.
  - repeat (constructor; [by vm_compute|]). constructor.
Qed.

(** C4: the front-matter of every content document has the keys [title],
    [date], [slug], [thumbnail], [template] and [tags], with [tags] a list
    whose items are all strings, and no two content documents declare the
    same slug. *)
Theorem C4_front_matter_required_keys_unique_slugs :
  Forall (fun doc =>
            exists fm,
              FrontMatter.front_matter doc = Some fm
              /\ Forall (fun k => FrontMatter.has_key k fm = true)
                        FrontMatter.required_keys
              /\ FrontMatter.is_string_list_at "tags" fm = true)
         content_documents
  /\ Forall (fun doc => is_Some (FrontMatter.slug_of doc)) content_documents
  /\ NoDup (FrontMatter.slug_of <$> content_documents).
Proof.
  split; [|split].
  - constructor; [|constructor].
    eexists. split; [reflexivity|]. split; [|reflexivity].
    repeat (constructor; [reflexivity|]). constructor.
  - constructor; [|constructor]. vm_compute. eauto.
  - apply (bool_decide_unpack _). by vm_compute.
Qed.

(** C5: [config.subscribersCount] is a string and not a number, and the
    string it holds, ['1200+'], does not convert to a number. *)
Theorem C5_subscribers_count_free_text :
  get_prop "subscribersCount" config = VString "1200+"
  /\ typeof (get_prop "subscribersCount" config) = "string"
  /\ typeof (get_prop "subscribersCount" config) <> "number"
  /\ Num.parses_as_number (field "subscribersCount") = false.
Proof. repeat split; try reflexivity. discriminate. Qed.

(** C6: the configuration is defined once and never mutated.  In any
    process, any two imports of the module, whatever their places in a run
    of imports, give the same references and leave the same process; the
    heap after them is the heap before them followed by what the one
    evaluation of the body allocated, so no object that existed has changed;
    and no statement of the module assigns to a property. *)
Theorem C6_config_defined_once_never_mutated (p : process) (i j : nat) :
  exists ns p1 new,
    nth_import i p = Some (ns, p1)
    /\ nth_import j p = Some (ns, p1)
    /\ import_config p1 = Some (ns, p1)
    /\ p_heap p1 = (p_heap p ++ new)%list
    /\ Forall (fun s => is_mutation s = false) config_js.
Proof.
  destruct (import_config_total p) as (ns & p1 & Himp & Hreg & new & Hheap).
  exists ns, p1, new. repeat split.
  - by apply nth_import_first.
  - by apply nth_import_first.
  - by apply import_config_cached.
  - done.
  - apply config_js_no_mutation.
Qed.

(** C7: the module exports exactly two names, [SavedTweets] and [default];
    the default export is the whole configuration object, with all its keys,
    and [SavedTweets] is the map of saved links.  Both hold string-valued data
    properties only, so nothing exported is an operation.  An import
    succeeds in every process, and importing again changes nothing. *)
Theorem C7_two_exports_plain_data (p : process) :
  export_names config_js = ["SavedTweets"; "default"]
  /\ (exists ns p1,
        import_config fresh = Some (ns, p1)
        /\ keys ns = ["SavedTweets"; "default"]
        /\ deref (p_heap p1) (get_prop "default" ns) = Some config
        /\ deref (p_heap p1) (get_prop "SavedTweets" ns) = Some SavedTweets)
  /\ literal_keys "config" config_js = Some (keys config)
  /\ literal_keys "SavedTweets" config_js = Some (keys SavedTweets)
  /\ Forall (fun kv => typeof kv.2 = "string") config
  /\ Forall (fun kv => typeof kv.2 = "string") SavedTweets
  /\ (exists ns p1,
        import_config p = Some (ns, p1) /\ import_config p1 = Some (ns, p1)).
Proof.
  split; [reflexivity|]. split.
  { eexists _, _. split; [by vm_compute|]. by vm_compute. }
  split; [reflexivity|]. split; [reflexivity|].
  split; [repeat constructor|]. split; [repeat constructor|].
  destruct (import_config_total p) as (ns & p1 & Himp & Hreg & _).
  exists ns, p1. split; [done|]. by apply import_config_cached.
Qed.

(** C8: each of the fields [siteUrl], [newsletter], [github], [twitter],
    [medium], [devto], [hashnode], [instagram], [hundredDaysOfCodeBot],
    [kofi], [twitterBotRepo] and [goodreads] is a string that starts with
    ['https://']; [mailAddress] starts with ['mailto:'] and is the only
    field of the configuration with a scheme other than [https]. *)
Theorem C8_link_fields_https_mail_mailto :
  Forall (fun k => exists s, get_prop k config = VString s
                             /\ startsWith s "https://" = true) link_fields
  /\ (exists s, get_prop "mailAddress" config = VString s
                /\ startsWith s "mailto:" = true)
  /\ filter (fun k => other_scheme k = true) (keys config) = ["mailAddress"]
  /\ filter (fun k => startsWith (field k) "https://" = true) (keys config)
     = link_fields.
Proof.
  split; [|split; [|split]].
  - repeat (constructor; [eexists; split; reflexivity|]). constructor.
  - eexists; split; reflexivity.
  - by vm_compute.
  - by vm_compute.
Qed.

(** C9: the identity fields do not agree.  [config.username] is
    ['Alec Campbell'] and [config.siteTitle] is ['Aman Mittal'], two
    different strings; [shortname], [github], [twitter], [devto] and
    [hashnode] carry the handle ['fu4303'] and not ['amanhimself'], while
    [medium], [newsletter] and [kofi] carry ['amanhimself'] and not
    ['fu4303']. *)
Theorem C9_identity_fields_inconsistent :
  get_prop "username" config = VString "Alec Campbell"
  /\ get_prop "siteTitle" config = VString "Aman Mittal"
  /\ get_prop "username" config <> get_prop "siteTitle" config
  /\ Forall (fun k => includes (field k) "fu4303" = true
                      /\ includes (field k) "amanhimself" = false)
            ["shortname"; "github"; "twitter"; "devto"; "hashnode"]
  /\ Forall (fun k => includes (field k) "amanhimself" = true
                      /\ includes (field k) "fu4303" = false)
            ["medium"; "newsletter"; "kofi"].
Proof.
  split; [reflexivity|]. split; [reflexivity|]. split; [discriminate|].
  split; repeat (constructor; [split; reflexivity|]); constructor.
Qed.

(** C10: exactly one of the two entries of [SavedTweets] points to a tweet:
    the value of [twoMillionViews] starts with ['https://twitter.com/'], and
    the value of [topContributorFreeCodeCamp2018] does not: it is an article
    on [www.freecodecamp.org]. *)
Theorem C10_one_saved_tweet_is_a_tweet :
  (exists s, get_prop "twoMillionViews" SavedTweets = VString s
             /\ startsWith s "https://twitter.com/" = true)
  /\ (exists s, get_prop "topContributorFreeCodeCamp2018" SavedTweets = VString s
                /\ startsWith s "https://twitter.com/" = false
                /\ startsWith s "https://www.freecodecamp.org/news/" = true)
  /\ List.length SavedTweets = 2%nat
  /\ List.length (filter (fun kv => is_tweet kv = true) SavedTweets) = 1%nat.
Proof.
  split; [eexists; split; reflexivity|].
  split; [eexists; repeat split; reflexivity|].
  split; [reflexivity|]. by vm_compute.
Qed.

(** ** The notes reducer *)

Section NotesReducer.

Import NotesApp.

Context {Note : Type}.

#[local] Open Scope list_scope.

Implicit Types (s : app Note) (l : list (item Note)) (h : list (list (item Note))).

(** What [remove] leaves: the array it was given holds the elements the
    predicate fails on, the array it returns is new and holds the others,
    and every other array is as it was. *)
Lemma remove_spec h array l (P : item Note -> Prop)
    `{!forall x, Decision (P x)} :
  h !! array = Some l ->
  exists h',
    remove h array P = Some (List.length h, h')
    /\ h' !! List.length h = Some (filter P l)
    /\ h' !! array = Some (filter (fun x => ~ P x) l)
    /\ forall j, j <> array -> (j < List.length h)%nat -> h' !! j = h !! j.
Proof.
  intros Hl. unfold remove. rewrite Hl. eexists. split; [|split; [|split]].
  - by rewrite length_insert.
  - rewrite lookup_app_r by (rewrite length_insert; lia).
    by rewrite length_insert, Nat.sub_diag.
  - pose proof (lookup_lt_Some _ _ _ Hl).
    rewrite lookup_app_l by (rewrite length_insert; lia).
    by rewrite list_lookup_insert_eq.
  - intros j Hne Hlt.
    rewrite lookup_app_l by (rewrite length_insert; lia).
    by rewrite list_lookup_insert_ne.
Qed.

Lemma notes_lookup s l : heap s !! state s = Some l -> notes s = l.
Proof. unfold notes. by intros ->. Qed.

Lemma ids_below_mono c c' l : (c <= c')%Z -> ids_below c l -> ids_below c' l.
Proof.
  intros Hc Hl. unfold ids_below in *. eapply Forall_impl; [exact Hl|].
  intros x (i & Hi & Hr). exists i. split; [done | lia].
Qed.

Lemma StronglySorted_filter {A} (R : A -> A -> Prop) (P : A -> Prop)
    `{!forall x, Decision (P x)} (xs : list A) :
  StronglySorted R xs -> StronglySorted R (filter P xs).
Proof.
  induction 1 as [|x xs _ IH Hx]; [constructor|].
  rewrite filter_cons. destruct (decide (P x)); [|done].
  constructor; [done|].
  apply Forall_forall. intros y [_ Hy]%list_elem_of_filter.
  rewrite Forall_forall in Hx. by apply Hx.
Qed.

(** Increasing ids are pairwise distinct. *)
Lemma increasing_NoDup l : StronglySorted id_lt l -> NoDup (n_id <$> l).
Proof.
  induction 1 as [|x l _ IH Hx]; [constructor|].
  rewrite fmap_cons. constructor; [|done].
  intros (y & Hxy & Hy)%list_elem_of_fmap.
  rewrite Forall_forall in Hx. specialize (Hx y Hy).
  unfold id_lt in Hx. rewrite <- Hxy in Hx.
  destruct (n_id x); [lia | done].
Qed.

Lemma increment_below c : (0 <= c < 2 ^ 53)%Z -> increment c = (c + 1)%Z.
Proof.
  intros Hc. unfold increment.
  destruct (Z.ltb_spec c (2 ^ 53)); [done | lia].
Qed.

(** Saving a note keeps the application consistent while the counter is
    below 2^53. *)
Lemma addNote_consistent note s :
  consistent s -> (noteID s < 2 ^ 53)%Z ->
  exists s', addNote note s = Some s'
    /\ consistent s'
    /\ noteID s' = (noteID s + 1)%Z
    /\ state s' = List.length (heap s)
    /\ notes s' = (notes s ++ [Item (Some (noteID s)) (Some note)])%list
    /\ exists new, heap s' = (heap s ++ new)%list.
Proof.
  intros [Hc [l Hl] Hb Hi H0] Hlt.
  rewrite (notes_lookup _ _ Hl) in Hb, Hi.
  unfold addNote, addnote, dispatch, notesReducer. simpl.
  rewrite Hl. rewrite increment_below by lia.
  eexists. split; [done|].
  assert (Hn : notes (App (noteID s + 1) (List.length (heap s))
                 (heap s ++ [l ++ [Item (Some (noteID s)) (Some note)]]))
               = (l ++ [Item (Some (noteID s)) (Some note)])%list).
  { unfold notes. simpl. rewrite lookup_app_r by lia.
    by rewrite Nat.sub_diag. }
  split; [|split; [done|split; [done|split]]].
  - split; simpl.
    + lia.
    + rewrite lookup_app_r by lia. rewrite Nat.sub_diag. eauto.
    + rewrite Hn. apply Forall_app. split.
      * apply (ids_below_mono (noteID s)); [lia | done].
      * constructor; [|constructor]. exists (noteID s). simpl. split; [done|lia].
    + rewrite Hn. apply StronglySorted_app. split; [|split].
      * intros x1 x2 Hx1 ->%list_elem_of_singleton.
        unfold ids_below in Hb. rewrite Forall_forall in Hb.
        destruct (Hb _ Hx1) as (i & Hi1 & Hr).
        unfold id_lt. rewrite Hi1. simpl. lia.
      * done.
      * repeat constructor.
    + pose proof (lookup_lt_Some _ _ _ H0).
      by rewrite lookup_app_l.
  - rewrite Hn. by rewrite (notes_lookup _ _ Hl).
  - simpl. eauto.
Qed.

(** Pressing a note: the state becomes a new array with the notes whose id
    differs from the one passed, the array that was the state keeps the
    others, and no other array changes. *)
Lemma deleteNote_spec id s l :
  heap s !! state s = Some l ->
  exists s', deleteNote id s = Some s'
    /\ noteID s' = noteID s
    /\ state s' = List.length (heap s)
    /\ heap s' !! state s' = Some (filter (fun x => n_id x <> id) l)
    /\ heap s' !! state s = Some (filter (fun x => n_id x = id) l)
    /\ forall j, j <> state s -> (j < List.length (heap s))%nat ->
                 heap s' !! j = heap s !! j.
Proof.
  intros Hl.
  unfold deleteNote, deletenote, dispatch, notesReducer. simpl.
  destruct (remove_spec _ _ _ (fun x => n_id x <> id) Hl)
    as (h' & -> & Hnew & Hold & Hrest).
  eexists. split; [done|]. simpl. repeat split; try done.
  rewrite Hold. f_equal. apply list_filter_iff.
  intros x. split; [apply dec_stable | tauto].
Qed.

(** Pressing a note keeps the application consistent, whatever id is
    passed. *)
Lemma deleteNote_consistent id s :
  consistent s ->
  exists s', deleteNote id s = Some s'
    /\ consistent s'
    /\ noteID s' = noteID s
    /\ notes s' = filter (fun x => n_id x <> id) (notes s).
Proof.
  intros [Hc [l Hl] Hb Hi H0].
  rewrite (notes_lookup _ _ Hl) in Hb, Hi. rewrite (notes_lookup _ _ Hl).
  destruct (deleteNote_spec id s l Hl)
    as (s' & Hdel & Hid & Hst & Hnew & Hold & Hrest).
  exists s'. split; [done|].
  pose proof (notes_lookup _ _ Hnew) as Hn.
  split; [|done]. split.
  - by rewrite Hid.
  - rewrite Hnew. eauto.
  - rewrite Hn, Hid. unfold ids_below in *.
    apply Forall_forall. intros x [_ Hx]%list_elem_of_filter.
    rewrite Forall_forall in Hb. by apply Hb.
  - rewrite Hn. by apply StronglySorted_filter.
  - destruct (decide (initialState = state s)) as [Heq|Hne].
    + rewrite Heq, Hold. rewrite Heq, Hl in H0. by inversion H0.
    + rewrite Hrest; [done | done |].
      by apply lookup_lt_Some in H0.
Qed.

Lemma createStore_consistent :
  exists s : app Note, createStore = Some s /\ consistent s /\ notes s = [].
Proof.
  eexists. split; [reflexivity|]. split; [|reflexivity].
  split; simpl; try done; try (by vm_compute); try (by eauto); constructor.
Qed.

Lemma run_consistent evs s :
  consistent s ->
  (noteID s + Z.of_nat (List.length evs) <= 2 ^ 53)%Z ->
  exists s', run evs s = Some s' /\ consistent s'.
Proof.
  revert s. induction evs as [|e evs IH]; intros s Hs Hlen; simpl in *.
  - eauto.
  - destruct e as [note|id]; simpl.
    + destruct (addNote_consistent note s Hs) as (s1 & -> & Hs1 & Hc1 & _);
        [lia|].
      apply IH; [done | lia].
    + destruct (deleteNote_consistent id s Hs) as (s1 & -> & Hs1 & Hc1 & _).
      apply IH; [done | lia].
Qed.


(** Filtering by a property every element has changes nothing. *)
Lemma filter_all {A} (P : A -> Prop) `{!forall x, Decision (P x)} (xs : list A) :
  Forall P xs -> filter P xs = xs.
Proof.
  induction 1 as [|x xs Hx _ IH]; [done|].
  by rewrite filter_cons_True, IH.
Qed.

Lemma filter_none {A} (P : A -> Prop) `{!forall x, Decision (P x)} (xs : list A) :
  Forall (fun x => ~ P x) xs -> filter P xs = [].
Proof.
  induction 1 as [|x xs Hx _ IH]; [done|].
  by rewrite filter_cons_False.
Qed.

Lemma addnotes_spec (ns : list Note) c :
  (0 <= c)%Z -> (c + Z.of_nat (List.length ns) <= 2 ^ 53)%Z ->
  a_id <$> (addnotes ns c).1 = Some <$> seqZ c (Z.of_nat (List.length ns))
  /\ (addnotes ns c).2 = (c + Z.of_nat (List.length ns))%Z
  /\ Forall (fun a => a_type a = ADD_NOTE) (addnotes ns c).1.
Proof.
  revert c. induction ns as [|n ns IH]; intros c H0 Hlen; simpl in *.
  - split; [done|]. split; [lia | constructor].
  - rewrite increment_below by lia.
    destruct (IH (c + 1)%Z) as (Hids & Hc & Hty); [lia | lia |].
    destruct (addnotes ns (c + 1)) as [acts c']. simpl in *.
    split; [|split].
    + rewrite seqZ_cons by lia. rewrite fmap_cons. f_equal.
      change (a_id <$> acts = Some <$> seqZ (Z.succ c) (Z.pred (Z.of_nat (S (List.length ns))))).
      rewrite Hids. do 2 f_equal; lia.
    + lia.
    + by constructor.
Qed.

(** Saving a note: the state becomes a new array, the notes there were
    followed by the new one, and no array that exists changes. *)
Lemma addNote_spec note s l :
  heap s !! state s = Some l ->
  exists s',
    addNote note s = Some s'
    /\ heap s' !! state s' = Some (l ++ [Item (Some (noteID s)) (Some note)])
    /\ noteID s' = increment (noteID s)
    /\ state s' = List.length (heap s)
    /\ forall j l', heap s !! j = Some l' -> heap s' !! j = Some l'.
Proof.
  intros Hl. unfold addNote, addnote, dispatch, notesReducer. simpl.
  rewrite Hl. eexists. split; [done|]. simpl. repeat split.
  - rewrite lookup_app_r by lia. by rewrite Nat.sub_diag.
  - intros j l' Hj. by apply lookup_app_l_Some.
Qed.

(** Notes saved one after another are appended in the order they are saved,
    under the successive values of the counter. *)
Lemma run_adds (ns : list Note) s l :
  heap s !! state s = Some l ->
  (0 <= noteID s)%Z ->
  (noteID s + Z.of_nat (List.length ns) <= 2 ^ 53)%Z ->
  exists s',
    run (Add <$> ns) s = Some s'
    /\ notes s'
       = l ++ zip_with (fun i n => Item (Some i) (Some n))
                       (seqZ (noteID s) (Z.of_nat (List.length ns))) ns
    /\ noteID s' = (noteID s + Z.of_nat (List.length ns))%Z.
Proof.
  revert s l. induction ns as [|n ns IH]; intros s l Hl H0 Hlen; simpl in *.
  - exists s. split; [done|]. rewrite (notes_lookup _ _ Hl).
    split; [by rewrite app_nil_r | lia].
  - destruct (addNote_spec n s l Hl) as (s1 & -> & Hl1 & Hc1 & _).
    rewrite increment_below in Hc1 by lia.
    destruct (IH s1 _ Hl1) as (s' & Hrun & Hn & Hc); [lia | lia |].
    exists s'. split; [done|]. split; [|lia].
    rewrite Hn, Hc1. rewrite (seqZ_cons (noteID s)) by lia. simpl.
    rewrite <- app_assoc. simpl.
    replace (Z.pred (Z.of_nat (S (List.length ns)))) with (Z.of_nat (List.length ns)) by lia.
    by replace (Z.succ (noteID s)) with (noteID s + 1)%Z by lia.
Qed.

(** Every note of a list with ids below a bound has a key, and the keys of
    notes with distinct ids are distinct. *)
Lemma keys_distinct c l :
  ids_below c l -> NoDup (n_id <$> l) ->
  exists ks,
    mapM keyExtractor l = Some ks
    /\ NoDup ks
    /\ forall k, k ∈ ks -> exists x, x ∈ l /\ keyExtractor x = Some k.
Proof.
  induction 1 as [|x l (i & Hi & _) _ IH]; intros Hnd.
  - exists []. split; [done|]. split; [constructor|].
    intros k Hk. by apply elem_of_nil in Hk.
  - rewrite fmap_cons in Hnd. apply NoDup_cons in Hnd as [Hx Hnd].
    destruct (IH Hnd) as (ks & Hks & Hndk & Hfrom).
    exists (pretty i :: ks). split; [|split].
    + assert (keyExtractor x = Some (pretty i)) as Hkx
        by (unfold keyExtractor; by rewrite Hi).
      simpl. rewrite Hkx. simpl. by rewrite Hks.
    + constructor; [|done]. intros Hin.
      destruct (Hfrom _ Hin) as (y & Hy & Hky).
      unfold keyExtractor in Hky. destruct (n_id y) as [j|] eqn:Hj; [|done].
      injection Hky as Hij. apply (inj pretty) in Hij. subst j.
      apply Hx. rewrite Hi, <- Hj. apply list_elem_of_fmap. eauto.
    + intros k [->|Hk]%elem_of_cons.
      * exists x. split; [by left|]. unfold keyExtractor. by rewrite Hi.
      * destruct (Hfrom _ Hk) as (y & Hy & Hky). exists y. split; [by right|done].
Qed.

(** * Properties of the notes reducer *)

(** X1: after any run of at most 2^53 events from the store [createStore]
    returns, the run has succeeded, the notes the store holds have pairwise
    distinct ids, they are listed by increasing id, every id is a number
    below the counter, and the array [initialState] is still empty. *)
Theorem notes_ids_distinct_after_run (evs : list (event Note)) :
  (Z.of_nat (List.length evs) <= 2 ^ 53)%Z ->
  exists s0 s,
    createStore = Some s0
    /\ run evs s0 = Some s
    /\ NoDup (n_id <$> notes s)
    /\ StronglySorted id_lt (notes s)
    /\ ids_below (noteID s) (notes s)
    /\ heap s !! initialState = Some [].
Proof.
  intros Hlen.
  destruct createStore_consistent as (s0 & Hs0 & Hc0 & _).
  assert (Hn0 : noteID s0 = 0%Z).
  { unfold createStore in Hs0. simpl in Hs0. by inversion Hs0. }
  destruct (run_consistent evs s0 Hc0) as (s & Hrun & Hs); [lia|].
  exists s0, s. repeat split; try done.
  - apply increasing_NoDup, Hs.
  - apply Hs.
  - apply Hs.
  - apply Hs.
Qed.

(** X2: saving a note makes the state a new array, the notes there were
    followed by the note saved under the value of the counter, and moves the
    counter on; the array that was the state, and every other array, is left
    as it was. *)
Theorem addNote_appends note s l :
  heap s !! state s = Some l ->
  exists s',
    addNote note s = Some s'
    /\ notes s' = l ++ [Item (Some (noteID s)) (Some note)]
    /\ noteID s' = increment (noteID s)
    /\ state s' <> state s
    /\ forall j l', heap s !! j = Some l' -> heap s' !! j = Some l'.
Proof.
  intros Hl.
  destruct (addNote_spec note s l Hl) as (s' & Hadd & Hn & Hc & Hst & Hkeep).
  exists s'. rewrite (notes_lookup _ _ Hn). repeat split; try done.
  apply lookup_lt_Some in Hl. lia.
Qed.

(** X3: pressing a note makes the state a new array that holds, in their
    order, the notes whose id differs from the id passed; no note with that
    id is left. *)
Theorem deleteNote_filters id s l :
  heap s !! state s = Some l ->
  exists s',
    deleteNote id s = Some s'
    /\ notes s' = filter (fun x => n_id x <> id) l
    /\ state s' <> state s
    /\ noteID s' = noteID s
    /\ id ∉ (n_id <$> notes s').
Proof.
  intros Hl.
  destruct (deleteNote_spec id s l Hl)
    as (s' & Hdel & Hid & Hst & Hnew & _).
  exists s'. rewrite (notes_lookup _ _ Hnew). repeat split; try done.
  - apply lookup_lt_Some in Hl. lia.
  - intros (x & Hx & [Hne _]%list_elem_of_filter)%list_elem_of_fmap. done.
Qed.

(** X4: the reducer changes the state it is given when it deletes: after a
    note is pressed, the array that was the state holds only the notes with
    the id passed, so it has changed as soon as it held a note with another
    id. *)
Theorem deleteNote_changes_previous_state id s l :
  heap s !! state s = Some l ->
  exists s',
    deleteNote id s = Some s'
    /\ heap s' !! state s = Some (filter (fun x => n_id x = id) l)
    /\ ((exists x, x ∈ l /\ n_id x <> id) -> heap s' !! state s <> heap s !! state s).
Proof.
  intros Hl.
  destruct (deleteNote_spec id s l Hl)
    as (s' & Hdel & _ & _ & _ & Hold & _).
  exists s'. repeat split; try done.
  intros (x & Hx & Hne). rewrite Hold, Hl. intros [= Heq].
  rewrite <- Heq in Hx. by apply list_elem_of_filter in Hx as [? _].
Qed.

(** X5: only DELETE_NOTE changes an array that exists: for an action of any
    other type, the heap the reducer leaves is the heap it was given,
    followed by what it has allocated. *)
Theorem notesReducer_mutates_only_on_delete h st (a : action Note) r h' :
  a_type a <> DELETE_NOTE ->
  notesReducer h st a = Some (r, h') ->
  exists new, h' = h ++ new.
Proof.
  intros Hty. unfold notesReducer.
  destruct (decide (a_type a = ADD_NOTE)).
  - destruct (h !! default initialState st); [|done].
    intros [= _ <-]. eauto.
  - destruct (decide (a_type a = DELETE_NOTE)); [done|].
    intros [= _ <-]. exists []. by rewrite app_nil_r.
Qed.

(** X6: saving a note and then pressing it gives back the notes there were,
    in a consistent application whose counter is below 2^53. *)
Theorem addNote_deleteNote_restores note s :
  consistent s -> (noteID s < 2 ^ 53)%Z ->
  exists s1 s2,
    addNote note s = Some s1
    /\ deleteNote (Some (noteID s)) s1 = Some s2
    /\ notes s2 = notes s.
Proof.
  intros Hs Hlt.
  destruct (addNote_consistent note s Hs Hlt)
    as (s1 & Hadd & Hs1 & _ & _ & Hn1 & _).
  destruct (deleteNote_consistent (Some (noteID s)) s1 Hs1)
    as (s2 & Hdel & _ & _ & Hn2).
  exists s1, s2. split; [done|]. split; [done|].
  rewrite Hn2, Hn1, filter_app.
  rewrite filter_cons_False by (simpl; intros Hne; by apply Hne).
  rewrite filter_nil.
  rewrite app_nil_r. apply filter_all.
  pose proof (ids_fresh s Hs) as Hb. unfold ids_below in Hb.
  eapply Forall_impl; [exact Hb|].
  intros x (i & -> & Hr). intros [= ->]. lia.
Qed.

(** X7: pressing with an id that no note has leaves the notes as they were,
    in a new array, and empties the array that was the state. *)
Theorem deleteNote_absent_id id s l :
  heap s !! state s = Some l ->
  id ∉ (n_id <$> l) ->
  exists s',
    deleteNote id s = Some s'
    /\ notes s' = l
    /\ heap s' !! state s = Some [].
Proof.
  intros Hl Hid.
  destruct (deleteNote_spec id s l Hl)
    as (s' & Hdel & _ & _ & Hnew & Hold & _).
  assert (Hall : Forall (fun x => n_id x <> id) l).
  { apply Forall_forall. intros x Hx Heq. apply Hid.
    apply list_elem_of_fmap. eauto. }
  exists s'. split; [done|]. split.
  - rewrite (notes_lookup _ _ Hnew). by apply filter_all.
  - rewrite Hold. f_equal. by apply filter_none.
Qed.

(** X8: [deleteNote(undefined)] deletes nothing in a consistent application:
    every id there is a number. *)
Theorem deleteNote_undefined_keeps_notes s :
  consistent s ->
  exists s', deleteNote None s = Some s' /\ notes s' = notes s.
Proof.
  intros Hs.
  destruct (deleteNote_consistent None s Hs) as (s' & Hdel & _ & _ & Hn).
  exists s'. split; [done|]. rewrite Hn. apply filter_all.
  pose proof (ids_fresh s Hs) as Hb. unfold ids_below in Hb.
  eapply Forall_impl; [exact Hb|].
  by intros x (i & -> & _).
Qed.


(** X10: the order in which two notes are pressed does not matter for the
    notes that are left, and pressing the same note again changes nothing
    more. *)
Theorem deleteNote_commutes_idempotent i j s l :
  heap s !! state s = Some l ->
  exists si sij sj sji sii,
    deleteNote i s = Some si /\ deleteNote j si = Some sij
    /\ deleteNote j s = Some sj /\ deleteNote i sj = Some sji
    /\ deleteNote i si = Some sii
    /\ notes sij = notes sji
    /\ notes sii = notes si.
Proof.
  intros Hl.
  destruct (deleteNote_spec i s l Hl) as (si & Hi & _ & _ & Hni & _).
  destruct (deleteNote_spec j si _ Hni) as (sij & Hij & _ & _ & Hnij & _).
  destruct (deleteNote_spec j s l Hl) as (sj & Hj & _ & _ & Hnj & _).
  destruct (deleteNote_spec i sj _ Hnj) as (sji & Hji & _ & _ & Hnji & _).
  destruct (deleteNote_spec i si _ Hni) as (sii & Hii & _ & _ & Hnii & _).
  exists si, sij, sj, sji, sii. repeat split; try done.
  - rewrite (notes_lookup _ _ Hnij), (notes_lookup _ _ Hnji).
    rewrite !list_filter_filter. apply list_filter_iff. tauto.
  - rewrite (notes_lookup _ _ Hnii), (notes_lookup _ _ Hni).
    rewrite list_filter_filter. apply list_filter_iff. tauto.
Qed.

(** X11: while the counter stays within 2^53, [addnote] called on one note
    after another gives ADD_NOTE actions whose ids are the successive values
    of the counter, and leaves the counter advanced by the number of
    calls. *)
Theorem addnote_ids_consecutive (ns : list Note) c :
  (0 <= c)%Z -> (c + Z.of_nat (List.length ns) <= 2 ^ 53)%Z ->
  a_id <$> (addnotes ns c).1 = Some <$> seqZ c (Z.of_nat (List.length ns))
  /\ NoDup (a_id <$> (addnotes ns c).1)
  /\ (addnotes ns c).2 = (c + Z.of_nat (List.length ns))%Z
  /\ Forall (fun a => a_type a = ADD_NOTE) (addnotes ns c).1.
Proof.
  intros H0 Hlen.
  destruct (addnotes_spec ns c H0 Hlen) as (Hids & Hc & Hty).
  repeat split; try done.
  rewrite Hids. apply (NoDup_fmap_2 _), NoDup_seqZ.
Qed.

(** X12: notes saved one after another from the store [createStore] returns
    are held in the order they were saved, with the ids 0, 1, 2, ... *)
Theorem saved_notes_in_order (ns : list Note) :
  (Z.of_nat (List.length ns) <= 2 ^ 53)%Z ->
  exists s0 s,
    createStore = Some s0
    /\ run (Add <$> ns) s0 = Some s
    /\ notes s = zip_with (fun i n => Item (Some i) (Some n))
                          (seqZ 0 (Z.of_nat (List.length ns))) ns
    /\ noteID s = Z.of_nat (List.length ns).
Proof.
  intros Hlen.
  destruct (run_adds ns (App 0 0 [[]]) []) as (s & Hrun & Hn & Hc);
    [done | done | simpl; lia |].
  exists (App 0 0 [[]]), s. split; [done|]. split; [done|]. split; [done|].
  simpl in Hc. lia.
Qed.

(** X13: in a consistent application every note has a key, and the keys
    [keyExtractor] gives the list are pairwise distinct. *)
Theorem keyExtractor_keys_distinct s :
  consistent s ->
  exists ks,
    mapM keyExtractor (notes s) = Some ks
    /\ NoDup ks
    /\ List.length ks = List.length (notes s).
Proof.
  intros Hs.
  destruct (keys_distinct (noteID s) (notes s)) as (ks & Hks & Hnd & _).
  - apply Hs.
  - apply increasing_NoDup, Hs.
  - exists ks. split; [done|]. split; [done|].
    symmetry. by apply length_mapM in Hks.
Qed.

End NotesReducer.

(** ** The properties at work on two saved notes *)

Lemma two_notes_consistent : NotesApp.consistent NotesApp.two_notes.
Proof.
  split.
  - by vm_compute.
  - by eexists.
  - repeat constructor; eexists; (split; [reflexivity | by vm_compute]).
  - repeat constructor.
  - reflexivity.
Defined.

Lemma two_notes_saved :
  NotesApp.createStore ≫= NotesApp.run [NotesApp.Add "milk"; NotesApp.Add "eggs"]
  = Some NotesApp.two_notes.
Proof. reflexivity. Qed.

Lemma notes_ids_distinct_after_run_witness :
  (Z.of_nat (List.length [NotesApp.Add "milk"; NotesApp.Add "eggs";
                          NotesApp.Delete (Some 0%Z)]) <= 2 ^ 53)%Z
  /\ exists s0 s,
       NotesApp.createStore = Some s0
       /\ NotesApp.run [NotesApp.Add "milk"; NotesApp.Add "eggs";
                        NotesApp.Delete (Some 0%Z)] s0 = Some s
       /\ NoDup (NotesApp.n_id <$> NotesApp.notes s)
       /\ StronglySorted NotesApp.id_lt (NotesApp.notes s)
       /\ NotesApp.ids_below (NotesApp.noteID s) (NotesApp.notes s)
       /\ NotesApp.heap s !! NotesApp.initialState = Some [].
Proof.
  split; [by vm_compute|].
  apply (notes_ids_distinct_after_run
           [NotesApp.Add "milk"; NotesApp.Add "eggs"; NotesApp.Delete (Some 0%Z)]).
  by vm_compute.
Defined.

Lemma addNote_appends_witness :
  NotesApp.heap NotesApp.two_notes !! NotesApp.state NotesApp.two_notes
  = Some [NotesApp.milk; NotesApp.eggs]
  /\ exists s',
       NotesApp.addNote "bread" NotesApp.two_notes = Some s'
       /\ NotesApp.notes s'
          = ([NotesApp.milk; NotesApp.eggs]
             ++ [NotesApp.Item (Some (NotesApp.noteID NotesApp.two_notes))
                               (Some "bread")])%list
       /\ NotesApp.noteID s' = NotesApp.increment (NotesApp.noteID NotesApp.two_notes)
       /\ NotesApp.state s' <> NotesApp.state NotesApp.two_notes
       /\ forall j l', NotesApp.heap NotesApp.two_notes !! j = Some l' ->
                       NotesApp.heap s' !! j = Some l'.
Proof.
  split; [reflexivity|].
  apply (addNote_appends "bread" NotesApp.two_notes). reflexivity.
Defined.

Lemma deleteNote_filters_witness :
  NotesApp.heap NotesApp.two_notes !! NotesApp.state NotesApp.two_notes
  = Some [NotesApp.milk; NotesApp.eggs]
  /\ exists s',
       NotesApp.deleteNote (Some 0%Z) NotesApp.two_notes = Some s'
       /\ NotesApp.notes s'
          = filter (fun x => NotesApp.n_id x <> Some 0%Z) [NotesApp.milk; NotesApp.eggs]
       /\ NotesApp.state s' <> NotesApp.state NotesApp.two_notes
       /\ NotesApp.noteID s' = NotesApp.noteID NotesApp.two_notes
       /\ Some 0%Z ∉ (NotesApp.n_id <$> NotesApp.notes s').
Proof.
  split; [reflexivity|].
  apply (deleteNote_filters (Some 0%Z) NotesApp.two_notes). reflexivity.
Defined.

Lemma deleteNote_changes_previous_state_witness :
  NotesApp.heap NotesApp.two_notes !! NotesApp.state NotesApp.two_notes
  = Some [NotesApp.milk; NotesApp.eggs]
  /\ exists s',
       NotesApp.deleteNote (Some 0%Z) NotesApp.two_notes = Some s'
       /\ NotesApp.heap s' !! NotesApp.state NotesApp.two_notes
          = Some (filter (fun x => NotesApp.n_id x = Some 0%Z)
                         [NotesApp.milk; NotesApp.eggs])
       /\ ((exists x, x ∈ [NotesApp.milk; NotesApp.eggs]
                      /\ NotesApp.n_id x <> Some 0%Z) ->
           NotesApp.heap s' !! NotesApp.state NotesApp.two_notes
           <> NotesApp.heap NotesApp.two_notes !! NotesApp.state NotesApp.two_notes).
Proof.
  split; [reflexivity|].
  apply (deleteNote_changes_previous_state (Some 0%Z) NotesApp.two_notes).
  reflexivity.
Defined.

Lemma notesReducer_mutates_only_on_delete_witness :
  NotesApp.a_type (NotesApp.addnote "bread" 2).1 <> NotesApp.DELETE_NOTE
  /\ NotesApp.notesReducer (NotesApp.heap NotesApp.two_notes) (Some 2%nat)
       (NotesApp.addnote "bread" 2).1
     = Some (3%nat,
             (NotesApp.heap NotesApp.two_notes
              ++ [[NotesApp.milk; NotesApp.eggs;
                   NotesApp.Item (Some 2%Z) (Some "bread")]])%list)
  /\ exists new,
       (NotesApp.heap NotesApp.two_notes
        ++ [[NotesApp.milk; NotesApp.eggs;
             NotesApp.Item (Some 2%Z) (Some "bread")]])%list
       = (NotesApp.heap NotesApp.two_notes ++ new)%list.
Proof.
  split; [by vm_compute|]. split; [reflexivity|].
  apply (notesReducer_mutates_only_on_delete
           (NotesApp.heap NotesApp.two_notes) (Some 2%nat)
           (NotesApp.addnote "bread" 2).1 3%nat).
  - by vm_compute.
  - reflexivity.
Defined.

Lemma addNote_deleteNote_restores_witness :
  NotesApp.consistent NotesApp.two_notes
  /\ (NotesApp.noteID NotesApp.two_notes < 2 ^ 53)%Z
  /\ exists s1 s2,
       NotesApp.addNote "bread" NotesApp.two_notes = Some s1
       /\ NotesApp.deleteNote (Some (NotesApp.noteID NotesApp.two_notes)) s1 = Some s2
       /\ NotesApp.notes s2 = NotesApp.notes NotesApp.two_notes.
Proof.
  split; [apply two_notes_consistent|]. split; [by vm_compute|].
  apply (addNote_deleteNote_restores "bread" NotesApp.two_notes).
  - apply two_notes_consistent.
  - by vm_compute.
Defined.

Lemma deleteNote_absent_id_witness :
  NotesApp.heap NotesApp.two_notes !! NotesApp.state NotesApp.two_notes
  = Some [NotesApp.milk; NotesApp.eggs]
  /\ (Some 7%Z ∉ (NotesApp.n_id <$> [NotesApp.milk; NotesApp.eggs]))
  /\ exists s',
       NotesApp.deleteNote (Some 7%Z) NotesApp.two_notes = Some s'
       /\ NotesApp.notes s' = [NotesApp.milk; NotesApp.eggs]
       /\ NotesApp.heap s' !! NotesApp.state NotesApp.two_notes = Some [].
Proof.
  split; [reflexivity|].
  split; [apply (bool_decide_unpack _); by vm_compute|].
  apply (deleteNote_absent_id (Some 7%Z) NotesApp.two_notes).
  - reflexivity.
  - apply (bool_decide_unpack _). by vm_compute.
Defined.

Lemma deleteNote_undefined_keeps_notes_witness :
  NotesApp.consistent NotesApp.two_notes
  /\ exists s',
       NotesApp.deleteNote None NotesApp.two_notes = Some s'
       /\ NotesApp.notes s' = NotesApp.notes NotesApp.two_notes.
Proof.
  split; [apply two_notes_consistent|].
  apply (deleteNote_undefined_keeps_notes NotesApp.two_notes).
  apply two_notes_consistent.
Defined.


Lemma deleteNote_commutes_idempotent_witness :
  NotesApp.heap NotesApp.two_notes !! NotesApp.state NotesApp.two_notes
  = Some [NotesApp.milk; NotesApp.eggs]
  /\ exists si sij sj sji sii,
       NotesApp.deleteNote (Some 0%Z) NotesApp.two_notes = Some si
       /\ NotesApp.deleteNote (Some 1%Z) si = Some sij
       /\ NotesApp.deleteNote (Some 1%Z) NotesApp.two_notes = Some sj
       /\ NotesApp.deleteNote (Some 0%Z) sj = Some sji
       /\ NotesApp.deleteNote (Some 0%Z) si = Some sii
       /\ NotesApp.notes sij = NotesApp.notes sji
       /\ NotesApp.notes sii = NotesApp.notes si.
Proof.
  split; [reflexivity|].
  apply (deleteNote_commutes_idempotent (Some 0%Z) (Some 1%Z) NotesApp.two_notes
           [NotesApp.milk; NotesApp.eggs]).
  reflexivity.
Defined.

Lemma addnote_ids_consecutive_witness :
  (0 <= 0)%Z
  /\ (0 + Z.of_nat (List.length ["milk"; "eggs"; "bread"]) <= 2 ^ 53)%Z
  /\ NotesApp.a_id <$> (NotesApp.addnotes ["milk"; "eggs"; "bread"] 0).1
     = Some <$> seqZ 0 (Z.of_nat (List.length ["milk"; "eggs"; "bread"]))
  /\ NoDup (NotesApp.a_id <$> (NotesApp.addnotes ["milk"; "eggs"; "bread"] 0).1)
  /\ (NotesApp.addnotes ["milk"; "eggs"; "bread"] 0).2
     = (0 + Z.of_nat (List.length ["milk"; "eggs"; "bread"]))%Z
  /\ Forall (fun a => NotesApp.a_type a = NotesApp.ADD_NOTE)
            (NotesApp.addnotes ["milk"; "eggs"; "bread"] 0).1.
Proof.
  split; [by vm_compute|]. split; [by vm_compute|].
  apply (addnote_ids_consecutive ["milk"; "eggs"; "bread"] 0%Z); by vm_compute.
Defined.

Lemma saved_notes_in_order_witness :
  (Z.of_nat (List.length ["milk"; "eggs"]) <= 2 ^ 53)%Z
  /\ exists s0 s,
       NotesApp.createStore = Some s0
       /\ NotesApp.run (NotesApp.Add <$> ["milk"; "eggs"]) s0 = Some s
       /\ NotesApp.notes s
          = zip_with (fun i n => NotesApp.Item (Some i) (Some n))
                     (seqZ 0 (Z.of_nat (List.length ["milk"; "eggs"])))
                     ["milk"; "eggs"]
       /\ NotesApp.noteID s = Z.of_nat (List.length ["milk"; "eggs"]).
Proof.
  split; [by vm_compute|].
  apply (saved_notes_in_order ["milk"; "eggs"]). by vm_compute.
Defined.

Lemma keyExtractor_keys_distinct_witness :
  NotesApp.consistent NotesApp.two_notes
  /\ exists ks,
       mapM NotesApp.keyExtractor (NotesApp.notes NotesApp.two_notes) = Some ks
       /\ NoDup ks
       /\ List.length ks = List.length (NotesApp.notes NotesApp.two_notes).
Proof.
  split; [apply two_notes_consistent|].
  apply (keyExtractor_keys_distinct NotesApp.two_notes).
  apply two_notes_consistent.
Defined.
